(** * Self-parking car: drive controller and sensor ring

    A shallow embedding of the two React components of the repository,

    - [Car]     : src/components/Car/Car.tsx
    - [Sensors] : src/components/world/car/Sensors.tsx

    JavaScript numbers are read as real numbers ([R]); counts, array
    indices and millisecond timestamps are integers.  A function component
    is a function from its props and its hook state to the next hook state:
    values held by [useState] and [useRef] survive a render, everything
    else in the component body is rebuilt by each render. *)

From Stdlib Require Import Reals Lra ZArith Lia String Bool.
From stdpp Require Import base list.

Open Scope R_scope.

(** Exceptions the embedded code can raise. *)
Inductive Exn : Type :=
| TypeError    (* a property read on [undefined] *)
| RangeError.  (* [new Array(len)] with an invalid length *)

(** ** Car.tsx *)
Module Car.

Definition Vec3 : Type := (R * R * R)%type.

(** [chassis.current.api]: the pose operations of the chassis body. *)
Record ChassisApi : Type := {
  position : Vec3;
  velocity : Vec3;
  angularVelocity : Vec3;
  rotation : Vec3
}.

(** What the physics collaborator holds per wheel (indices 0..3). *)
Record Wheels : Type := {
  wheelEngineForce : list R;
  wheelSteering : list R;
  wheelBrake : list R
}.

Definition restingWheels : Wheels :=
  {| wheelEngineForce := [0; 0; 0; 0];
     wheelSteering := [0; 0; 0; 0];
     wheelBrake := [0; 0; 0; 0] |}.

(** Modelled from the spec: the [api] returned by [useRaycastVehicle]
    (package @react-three/cannon) is not under src/.  Per section 6 it offers
    applyEngineForce(force, wheelIndex), setSteeringValue(value, wheelIndex)
    and setBrake(force, wheelIndex); per section 7 a call made before the
    physics handles are bound is absorbed as a no-op.  [None] is the vehicle
    whose handles are not bound yet. *)
Definition applyEngineForce (value : R) (wheelIndex : nat) (v : option Wheels)
  : option Wheels :=
  match v with
  | None => None
  | Some w => Some {| wheelEngineForce := <[wheelIndex := value]> (wheelEngineForce w);
                      wheelSteering := wheelSteering w;
                      wheelBrake := wheelBrake w |}
  end.

(** Modelled from the spec: see [applyEngineForce]. *)
Definition setSteeringValue (value : R) (wheelIndex : nat) (v : option Wheels)
  : option Wheels :=
  match v with
  | None => None
  | Some w => Some {| wheelEngineForce := wheelEngineForce w;
                      wheelSteering := <[wheelIndex := value]> (wheelSteering w);
                      wheelBrake := wheelBrake w |}
  end.

(** Modelled from the spec: see [applyEngineForce]. *)
Definition setBrake (value : R) (wheelIndex : nat) (v : option Wheels)
  : option Wheels :=
  match v with
  | None => None
  | Some w => Some {| wheelEngineForce := wheelEngineForce w;
                      wheelSteering := wheelSteering w;
                      wheelBrake := <[wheelIndex := value]> (wheelBrake w) |}
  end.

(** *** The wheels (lines 56-105) *)

Record WheelInfoOptions : Type := {
  radius : R;
  directionLocal : Vec3;
  suspensionStiffness : R;
  suspensionRestLength : R;
  maxSuspensionForce : R;
  maxSuspensionTravel : R;
  dampingRelaxation : R;
  dampingCompression : R;
  frictionSlip : R;
  rollInfluence : R;
  axleLocal : Vec3;
  chassisConnectionPointLocal : Vec3;
  isFrontWheel : bool;
  useCustomSlidingRotationalSpeed : bool;
  customSlidingRotationalSpeed : R
}.

Definition chassisWidth : R := 1.2.
Definition chassisHeight : R := -0.04.
Definition chassisFront : R := 1.3.
Definition chassisBack : R := -1.15.

Definition wheelInfo (wheelRadius : R) : WheelInfoOptions :=
  {| radius := wheelRadius;
     directionLocal := (0, -1, 0);
     suspensionStiffness := 30;
     suspensionRestLength := 0.3;
     maxSuspensionForce := 10000;
     maxSuspensionTravel := 0.3;
     dampingRelaxation := 2.3;
     dampingCompression := 4.4;
     frictionSlip := 5;
     rollInfluence := 0.01;
     axleLocal := (-1, 0, 0);
     chassisConnectionPointLocal := (1, 0, 1);
     isFrontWheel := false;
     useCustomSlidingRotationalSpeed := true;
     customSlidingRotationalSpeed := -30 |}.

(** A copy of [w] with the two fields each wheel assigns. *)
Definition connected (point : Vec3) (front : bool) (w : WheelInfoOptions)
  : WheelInfoOptions :=
  {| radius := radius w;
     directionLocal := directionLocal w;
     suspensionStiffness := suspensionStiffness w;
     suspensionRestLength := suspensionRestLength w;
     maxSuspensionForce := maxSuspensionForce w;
     maxSuspensionTravel := maxSuspensionTravel w;
     dampingRelaxation := dampingRelaxation w;
     dampingCompression := dampingCompression w;
     frictionSlip := frictionSlip w;
     rollInfluence := rollInfluence w;
     axleLocal := axleLocal w;
     chassisConnectionPointLocal := point;
     isFrontWheel := front;
     useCustomSlidingRotationalSpeed := useCustomSlidingRotationalSpeed w;
     customSlidingRotationalSpeed := customSlidingRotationalSpeed w |}.

Definition wheelInfos (wheelRadius : R) : list WheelInfoOptions :=
  let wheelInfo_1 :=
    connected (- chassisWidth / 2, chassisHeight, chassisFront) true (wheelInfo wheelRadius) in
  let wheelInfo_2 :=
    connected (chassisWidth / 2, chassisHeight, chassisFront) true (wheelInfo wheelRadius) in
  let wheelInfo_3 :=
    connected (- chassisWidth / 2, chassisHeight, chassisBack) false (wheelInfo wheelRadius) in
  let wheelInfo_4 :=
    connected (chassisWidth / 2, chassisHeight, chassisBack) false (wheelInfo wheelRadius) in
  [wheelInfo_1; wheelInfo_2; wheelInfo_3; wheelInfo_4].

(** *** useKeyPress (lines 236-264) *)

Inductive KeyboardEvent : Type :=
| keydown (key : string)
| keyup (key : string).

Definition includes (target : list string) (key : string) : bool :=
  existsb (String.eqb key) target.

Definition downHandler (target : list string) (key : string) (keyPressed : bool) : bool :=
  if includes target key then true else keyPressed.

Definition upHandler (target : list string) (key : string) (keyPressed : bool) : bool :=
  if includes target key then false else keyPressed.

(** The effect of line 251 adds the two listeners only when [controllable]
    holds; without listeners no event reaches [keyPressed]. *)
Definition useKeyPress (target : list string) (controllable : bool)
    (e : KeyboardEvent) (keyPressed : bool) : bool :=
  if negb controllable then keyPressed
  else match e with
       | keydown key => downHandler target key keyPressed
       | keyup key => upHandler target key keyPressed
       end.

(** *** The component state *)

(** The six flags of lines 116-121. *)
Record Keys : Type := {
  forward : bool;
  backward : bool;
  left : bool;
  right : bool;
  brake : bool;
  reset : bool
}.

(** The three [useState] cells of lines 123-125. *)
Record Actuation : Type := {
  steeringValue : R;
  engineForce : R;
  brakeForce : R
}.

Record Car : Type := {
  controllable : bool;            (* prop *)
  keys : Keys;
  actuation : Actuation;          (* the values of the last render *)
  chassis : option ChassisApi;    (* chassis.current, [None] while unbound *)
  vehicle : option Wheels         (* what [api] drives, [None] while unbound *)
}.

Definition maxSteerVal : R := 0.5.
Definition maxForce : R := 1000.
Definition maxBrakeForce : R := 100000.

(** *** useFrame (lines 131-165)

    The callback is a straight-line program over the state setters and the
    chassis pose operations.  It reads the flags and [engineForce] of the
    render that created it; a setter only schedules the value of the next
    render. *)
Inductive Op : Type :=
| SetSteeringValue (v : R)
| SetEngineForce (v : R)
| SetBrakeForce (v : R)
| PositionSet (v : Vec3)
| VelocitySet (v : Vec3)
| AngularVelocitySet (v : Vec3)
| RotationSet (v : Vec3).

(** Lines 135-141. *)
Definition steer (k : Keys) : list Op :=
  if left k && negb (right k) then [SetSteeringValue maxSteerVal]
  else if right k && negb (left k) then [SetSteeringValue (- maxSteerVal)]
  else [SetSteeringValue 0].

(** Lines 142-150. *)
Definition drive (k : Keys) (engineForce : R) : list Op :=
  if forward k && negb (backward k) then [SetBrakeForce 0; SetEngineForce (- maxForce)]
  else if backward k && negb (forward k) then [SetBrakeForce 0; SetEngineForce maxForce]
  else if Req_EM_T engineForce 0 then []        (* engineForce !== 0 fails *)
  else [SetEngineForce 0].

(** Lines 151-154. *)
Definition brakes (k : Keys) : list Op :=
  (if brake k then [SetBrakeForce maxBrakeForce] else [])
  ++ (if negb (brake k) then [SetBrakeForce 0] else []).

(** Lines 155-164. *)
Definition respawn (k : Keys) : list Op :=
  if reset k
  then [PositionSet (0, 5, 0); VelocitySet (0, 0, 0);
        AngularVelocitySet (0, 0.5, 0); RotationSet (0, - PI / 4, 0)]
  else [].

Definition useFrame (controllable : bool) (k : Keys) (engineForce : R) : list Op :=
  if negb controllable then []
  else steer k ++ drive k engineForce ++ brakes k ++ respawn k.

(** Running the callback.  The pending state starts as the rendered one and
    each setter overwrites its cell; a pose operation dereferences
    [chassis.current], which is a [TypeError] while the handle is unbound
    (lines 156-163 carry no guard).  What ran before a throw stays done. *)
Definition Pending : Type := (Actuation * option ChassisApi)%type.

Definition perform (op : Op) (p : Pending) : Exn + Pending :=
  let '(a, c) := p in
  match op with
  | SetSteeringValue v =>
      inr ({| steeringValue := v; engineForce := engineForce a; brakeForce := brakeForce a |}, c)
  | SetEngineForce v =>
      inr ({| steeringValue := steeringValue a; engineForce := v; brakeForce := brakeForce a |}, c)
  | SetBrakeForce v =>
      inr ({| steeringValue := steeringValue a; engineForce := engineForce a; brakeForce := v |}, c)
  | PositionSet v =>
      match c with
      | None => inl TypeError
      | Some b => inr (a, Some {| position := v; velocity := velocity b;
                                  angularVelocity := angularVelocity b; rotation := rotation b |})
      end
  | VelocitySet v =>
      match c with
      | None => inl TypeError
      | Some b => inr (a, Some {| position := position b; velocity := v;
                                  angularVelocity := angularVelocity b; rotation := rotation b |})
      end
  | AngularVelocitySet v =>
      match c with
      | None => inl TypeError
      | Some b => inr (a, Some {| position := position b; velocity := velocity b;
                                  angularVelocity := v; rotation := rotation b |})
      end
  | RotationSet v =>
      match c with
      | None => inl TypeError
      | Some b => inr (a, Some {| position := position b; velocity := velocity b;
                                  angularVelocity := angularVelocity b; rotation := v |})
      end
  end.

Fixpoint execute (ops : list Op) (p : Pending) : Pending * option Exn :=
  match ops with
  | [] => (p, None)
  | op :: rest =>
      match perform op p with
      | inl e => (p, Some e)
      | inr p' => execute rest p'
      end
  end.

(** *** The three effects (lines 167-181)

    Each runs after a render in which its dependency changed. *)
Definition pushEngineForce (engineForce : R) (v : option Wheels) : option Wheels :=
  applyEngineForce engineForce 3 (applyEngineForce engineForce 2 v).

Definition pushSteeringValue (steeringValue : R) (v : option Wheels) : option Wheels :=
  setSteeringValue steeringValue 1 (setSteeringValue steeringValue 0 v).

Definition pushBrakeForce (brakeForce : R) (v : option Wheels) : option Wheels :=
  fold_left (fun v i => setBrake brakeForce i v) [0; 1; 2; 3]%nat v.

Definition useEffects (old new : Actuation) (v : option Wheels) : option Wheels :=
  let v := if Req_EM_T (engineForce old) (engineForce new) then v
           else pushEngineForce (engineForce new) v in
  let v := if Req_EM_T (steeringValue old) (steeringValue new) then v
           else pushSteeringValue (steeringValue new) v in
  if Req_EM_T (brakeForce old) (brakeForce new) then v
  else pushBrakeForce (brakeForce new) v.

(** One tick of the render loop: the frame callback, then the render and
    the effects it triggers.  The setters of one callback are taken
    together, so the effects compare the values before and after the tick.
    The second component is the exception the callback threw, if any. *)
Definition tick (c : Car) : Car * option Exn :=
  let '((a, b), e) :=
    execute (useFrame (controllable c) (keys c) (engineForce (actuation c)))
            (actuation c, chassis c) in
  ({| controllable := controllable c;
      keys := keys c;
      actuation := a;
      chassis := b;
      vehicle := useEffects (actuation c) a (vehicle c) |}, e).

(** *** Executions *)

Definition press (controllable : bool) (e : KeyboardEvent) (k : Keys) : Keys :=
  {| forward  := useKeyPress ["w"; "ArrowUp"]%string controllable e (forward k);
     backward := useKeyPress ["s"; "ArrowDown"]%string controllable e (backward k);
     left     := useKeyPress ["a"; "ArrowLeft"]%string controllable e (left k);
     right    := useKeyPress ["d"; "ArrowRight"]%string controllable e (right k);
     brake    := useKeyPress [" "]%string controllable e (brake k);
     reset    := useKeyPress ["r"]%string controllable e (reset k) |}.

(** The chassis handle (line 50, bound by the [Chassis] child through
    [ref], line 190) and the vehicle handle (line 107, bound through the
    [ref] of line 188) are two handles: either can get bound alone, or both
    in one commit. *)
Inductive Event : Type :=
| Key (e : KeyboardEvent)            (* a key goes down or up *)
| Frame                              (* the render loop calls the frame callback *)
| Bind (body : ChassisApi)           (* both handles get bound *)
| BindChassis (body : ChassisApi)    (* the chassis handle alone gets bound *)
| BindVehicle.                       (* the vehicle handle alone gets bound *)

Definition step (c : Car) (ev : Event) : Car :=
  match ev with
  | Key e =>
      {| controllable := controllable c; keys := press (controllable c) e (keys c);
         actuation := actuation c; chassis := chassis c; vehicle := vehicle c |}
  | Frame => fst (tick c)
  | Bind body =>
      {| controllable := controllable c; keys := keys c; actuation := actuation c;
         chassis := Some body;
         vehicle := match vehicle c with None => Some restingWheels | Some w => Some w end |}
  | BindChassis body =>
      {| controllable := controllable c; keys := keys c; actuation := actuation c;
         chassis := Some body;
         vehicle := vehicle c |}
  | BindVehicle =>
      {| controllable := controllable c; keys := keys c; actuation := actuation c;
         chassis := chassis c;
         vehicle := match vehicle c with None => Some restingWheels | Some w => Some w end |}
  end.

(** No key held (the initial [useState(false)] of line 237), and the three
    cells as lines 123-125 start them. *)
Definition idle : Keys :=
  {| forward := false; backward := false; left := false;
     right := false; brake := false; reset := false |}.

Definition rest : Actuation :=
  {| steeringValue := 0; engineForce := 0; brakeForce := 0 |}.

(** The state of the first render: no key held, all three cells 0, no
    handle bound. *)
Definition mount (controllable : bool) : Car :=
  {| controllable := controllable;
     keys := idle;
     actuation := rest;
     chassis := None;
     vehicle := None |}.

Definition run (controllable : bool) (evs : list Event) : Car :=
  fold_left step evs (mount controllable).

(** The pose lines 157-163 write. *)
Definition respawned : ChassisApi :=
  {| position := (0, 5, 0);
     velocity := (0, 0, 0);
     angularVelocity := (0, 0.5, 0);
     rotation := (0, - PI / 4, 0) |}.

(** The same car with other flags held. *)
Definition holding (k : Keys) (c : Car) : Car :=
  {| controllable := controllable c; keys := k; actuation := actuation c;
     chassis := chassis c; vehicle := vehicle c |}.

Definition withReset (r : bool) (k : Keys) : Keys :=
  {| forward := forward k; backward := backward k; left := left k;
     right := right k; brake := brake k; reset := r |}.

Definition withDrive (f b l r : bool) (k : Keys) : Keys :=
  {| forward := f; backward := b; left := l; right := r;
     brake := brake k; reset := reset k |}.

(** A bound vehicle has its four wheels. *)
Definition wellBound (c : Car) : Prop :=
  match vehicle c with
  | None => True
  | Some w =>
      length (wheelEngineForce w) = 4%nat
      /\ length (wheelSteering w) = 4%nat
      /\ length (wheelBrake w) = 4%nat
  end.

(** *** Vocabulary of the further facts *)

Definition keyOf (e : KeyboardEvent) : string :=
  match e with
  | keydown key => key
  | keyup key => key
  end.

Definition isDown (e : KeyboardEvent) : bool :=
  match e with
  | keydown _ => true
  | keyup _ => false
  end.

(** The [keyPressed] of one [useKeyPress] after a list of keyboard events. *)
Definition keyPressedAfter (target : list string) (controllable : bool)
    (events : list KeyboardEvent) (keyPressed : bool) : bool :=
  fold_left (fun pressed e => useKeyPress target controllable e pressed) events keyPressed.

(** How many of the six flags differ between [k] and [k']. *)
Definition flagsChanged (k k' : Keys) : nat :=
  (Nat.b2n (xorb (forward k) (forward k')) + Nat.b2n (xorb (backward k) (backward k'))
   + Nat.b2n (xorb (left k) (left k')) + Nat.b2n (xorb (right k) (right k'))
   + Nat.b2n (xorb (brake k) (brake k')) + Nat.b2n (xorb (reset k) (reset k')))%nat.

(** The wheels hold the three values where the effects push them: the
    engine force on wheels 2 and 3, the steering value on wheels 0 and 1,
    the brake force on all four; the other slots are still 0. *)
Definition mirrored (a : Actuation) (w : Wheels) : Prop :=
  wheelEngineForce w = [0; 0; engineForce a; engineForce a]
  /\ wheelSteering w = [steeringValue a; steeringValue a; 0; 0]
  /\ wheelBrake w = [brakeForce a; brakeForce a; brakeForce a; brakeForce a].

(** Front wheels carry no engine force and rear wheels no steering. *)
Definition rolesKept (w : Wheels) : Prop :=
  wheelEngineForce w !! 0%nat = Some 0
  /\ wheelEngineForce w !! 1%nat = Some 0
  /\ wheelSteering w !! 2%nat = Some 0
  /\ wheelSteering w !! 3%nat = Some 0.

End Car.

(** ** Sensors.tsx *)
Module Sensors.

Definition Vec3 : Type := (R * R * R)%type.

(** An element of the distance vector as the code stores it. *)
Inductive SensorValue : Type :=
| undefined
| null
| number (distance : R).

(** [new Array(len).fill(value)].  The length has to be an array length, an
    integer from 0 to 2^32 - 1; a negative or a larger one raises
    [RangeError].  Lengths are integers here. *)
Definition Array_fill {A : Type} (len : Z) (value : A) : Exn + list A :=
  if (len <? 0)%Z || (2 ^ 32 <=? len)%Z then inl RangeError
  else inr (replicate (Z.to_nat len) value).

(** [array[index] = value].  Past the end JavaScript grows the array; the
    slots skipped that way read back as [undefined]. *)
Definition Array_set (array : list SensorValue) (index : nat) (value : SensorValue)
  : list SensorValue :=
  if (index <? length array)%nat then <[index := value]> array
  else array ++ replicate (index - length array) undefined ++ [value].

(** What line 33 stores for a reported distance: [typeof distance] is
    ['number'] or the distance is [undefined]. *)
Definition stored (distance : option R) : SensorValue :=
  match distance with
  | Some d => number d
  | None => null
  end.

(** *** The throttled callback *)

(** Modelled from the spec: [throttle] is imported from lodash (line 3) and
    is not under src/.  Sections 4.6 and 9 describe it as a timer state
    machine {Idle, Scheduled(lastValue, deadline)} over a fixed window: a
    request that finds it idle fires at once and opens a window (leading
    edge); requests inside the window are remembered, and the timer fires
    once more at the window's end if there were any (trailing edge), which
    opens the next window, so that two calls are never closer than one
    window.  The callback of line 23 takes no argument and reads the vector
    when it runs, so the machine remembers only that a call is due. *)
Inductive Throttle : Type :=
| Idle
| Scheduled (trailing : bool) (deadline : nat).

(** Modelled from the spec: a request at time [now]; the boolean says
    whether the wrapped callback runs now. *)
Definition throttled (wait now : nat) (th : Throttle) : bool * Throttle :=
  match th with
  | Idle => (true, Scheduled false (now + wait))
  | Scheduled _ deadline => (false, Scheduled true deadline)
  end.

(** Modelled from the spec: the host's timer facility has reached [now]; the
    result names the time of the trailing call when one was due. *)
Definition timerExpired (wait now : nat) (th : Throttle) : option nat * Throttle :=
  match th with
  | Idle => (None, Idle)
  | Scheduled trailing deadline =>
      if (deadline <=? now)%nat then
        if trailing
        then (Some deadline,
              if (deadline + wait <=? now)%nat then Idle
              else Scheduled false (deadline + wait))
        else (None, Idle)
      else (None, th)
  end.

(** *** The component *)

(** The props handed to one [SensorRay] (lines 55-64); [obstacles] and
    [onRay] are left out of the record, [onRay] is the function below. *)
Record SensorRay : Type := {
  index : nat;
  from : Vec3;
  to : Vec3;
  angleX : R;
  visible : bool
}.

(** One delivery to the consumer: when, and what the vector held then (the
    consumer is handed the live array, this is its content at the call). *)
Definition Delivery : Type := (nat * list SensorValue)%type.

Record Instance : Type := {
  sensorDistances : list SensorValue;      (* useRef of line 20 *)
  onSensorsCallbackThrottled : Throttle;   (* line 27, built by the last render *)
  superseded : list Throttle;              (* those of earlier renders, timers still armed *)
  onSensors : list Delivery                (* the consumer's calls, oldest first *)
}.

Section Constants.

(** ./constants and ../constants/performance are not under src/. *)
Variables SENSOR_HEIGHT SENSOR_DISTANCE : R.
Variable ON_SENSORS_THROTTLE_TIMEOUT : nat.

(** One render of the component (lines 17-73).  [mounted] is the hook state
    of the previous render, [None] on the first one.  [useRef] evaluates its
    argument on every render and keeps the value of the first; the throttled
    callback is built anew by every render. *)
Definition Sensors (sensorsNum : Z) (visibleSensors : bool) (mounted : option Instance)
  : Exn + (Instance * list SensorRay) :=
  match Array_fill sensorsNum undefined with
  | inl e => inl e
  | inr initial =>
      let inst :=
        match mounted with
        | None =>
            {| sensorDistances := initial;
               onSensorsCallbackThrottled := Idle;
               superseded := [];
               onSensors := [] |}
        | Some i =>
            {| sensorDistances := sensorDistances i;
               onSensorsCallbackThrottled := Idle;
               superseded := superseded i ++ [onSensorsCallbackThrottled i];
               onSensors := onSensors i |}
        end in
      let angleStep := 2 * PI / IZR sensorsNum in
      match Array_fill sensorsNum null with
      | inl e => inl e
      | inr slots =>
          inr (inst,
               imap (fun index _ =>
                       {| index := index;
                          from := (0, SENSOR_HEIGHT, 0);
                          to := (0, SENSOR_HEIGHT, SENSOR_DISTANCE);
                          angleX := angleStep * INR index;
                          visible := visibleSensors |}) slots)
      end
  end.

(** The timers that are due at [now] run their trailing call. *)
Definition runTimers (now : nat) (s : Instance) : Instance :=
  let old := map (timerExpired ON_SENSORS_THROTTLE_TIMEOUT now) (superseded s) in
  let cur := timerExpired ON_SENSORS_THROTTLE_TIMEOUT now (onSensorsCallbackThrottled s) in
  {| sensorDistances := sensorDistances s;
     onSensorsCallbackThrottled := snd cur;
     superseded := map snd old;
     onSensors :=
       onSensors s
       ++ map (fun t => (t, sensorDistances s))
              (omap fst old ++ option_list (fst cur)) |}.

(** Line 23. *)
Definition onSensorsCallback (now : nat) (s : Instance) : Instance :=
  {| sensorDistances := sensorDistances s;
     onSensorsCallbackThrottled := onSensorsCallbackThrottled s;
     superseded := superseded s;
     onSensors := onSensors s ++ [(now, sensorDistances s)] |}.

(** Lines 32-37, called at time [now]. *)
Definition onRay (now index : nat) (distance : option R) (s : Instance) : Instance :=
  let s := runTimers now s in
  let value := stored distance in
  let '(invoke, th) :=
    throttled ON_SENSORS_THROTTLE_TIMEOUT now (onSensorsCallbackThrottled s) in
  let s := {| sensorDistances := Array_set (sensorDistances s) index value;
              onSensorsCallbackThrottled := th;
              superseded := superseded s;
              onSensors := onSensors s |} in
  if invoke then onSensorsCallback now s else s.

(** *** Executions of a mounted component *)
Inductive Event : Type :=
| Render                                              (* the component renders again *)
| Ray (now index : nat) (distance : option R)         (* a ray reports: onRay(index, distance) *)
| Elapse (now : nat).                                 (* time passes until [now] *)

Definition step (sensorsNum : Z) (visibleSensors : bool) (s : Instance) (ev : Event)
  : Instance :=
  match ev with
  | Render =>
      match Sensors sensorsNum visibleSensors (Some s) with
      | inr (s', _) => s'
      | inl _ => s
      end
  | Ray now index distance => onRay now index distance s
  | Elapse now => runTimers now s
  end.

Definition run (sensorsNum : Z) (visibleSensors : bool) (evs : list Event)
  : Exn + Instance :=
  match Sensors sensorsNum visibleSensors None with
  | inl e => inl e
  | inr (s, _) => inr (fold_left (step sensorsNum visibleSensors) evs s)
  end.

(** The rays a construction attempt leaves behind. *)
Definition raysBuilt (r : Exn + (Instance * list SensorRay)) : list SensorRay :=
  match r with
  | inl _ => []
  | inr (_, rays) => rays
  end.

(** The consumer's calls in an execution. *)
Definition deliveries (r : Exn + Instance) : list Delivery :=
  match r with
  | inl _ => []
  | inr s => onSensors s
  end.




End Constants.

(** *** The obstacles (lines 39-50) *)

(** Modelled from the spec: [CarMetaData] (../types/car) is not under src/;
    section 4.5 has an object tagged as a sensor obstacle in its metadata.
    The tag is absent or a boolean. *)
Record CarMetaData : Type := {
  isSensorObstacle : option bool
}.

(** What the code reads of a [THREE.Object3D]. *)
#[warnings="-register-all"]
Inductive Object3D : Type := {
  type : string;
  name : string;
  userData : option CarMetaData;
  children : list Object3D
}.

Section Scene.

(** [getObjectByName] is three.js's and [CHASSIS_OBJECT_NAME] comes from
    ./constants; neither is under src/. *)
Variable getObjectByName : Object3D -> string -> option Object3D.
Variable CHASSIS_OBJECT_NAME : string.

(** The test of lines 43-50. *)
Definition isObstacle (object : option Object3D) : bool :=
  match object with
  | None => false
  | Some o =>
      match userData o with
      | None => false
      | Some meta =>
          match isSensorObstacle meta with
          | Some tagged => tagged
          | None => false
          end
      end
  end.

(** Lines 40-50 over the children of the scene; the objects that pass the
    last filter are handed on without their option. *)
Definition obstaclesAmong (nodes : list Object3D) : list Object3D :=
  omap (fun object => object)
    (List.filter isObstacle
       (map (fun object => getObjectByName object CHASSIS_OBJECT_NAME)
          (List.filter (fun object => String.eqb (type object) "Group") nodes))).

Definition obstacles (scene : Object3D) : list Object3D :=
  obstaclesAmong (children scene).

End Scene.

End Sensors.

(** * Facts about Car.tsx *)
Module CarFacts.
Import Car.

(** A frame of a controllable car, by cases on the six flags, on the test of
    line 148 and on the chassis handle. *)
Ltac frame_cases c :=
  destruct c as [cbl [f b l r br rs] [sv ef bf] ch veh]; simpl; intros ->;
  unfold tick, useFrame, steer, drive, brakes, respawn; simpl;
  destruct l, r, f, b, br, rs; simpl;
  destruct (Req_EM_T ef 0); destruct ch; simpl; try subst; try reflexivity.

Lemma tick_actuation (c : Car) :
  controllable c = true ->
  actuation (fst (tick c)) =
    {| steeringValue :=
         if left (keys c) && negb (right (keys c)) then maxSteerVal
         else if right (keys c) && negb (left (keys c)) then - maxSteerVal
         else 0;
       engineForce :=
         if forward (keys c) && negb (backward (keys c)) then - maxForce
         else if backward (keys c) && negb (forward (keys c)) then maxForce
         else 0;
       brakeForce := if brake (keys c) then maxBrakeForce else 0 |}.
Proof. frame_cases c. Qed.

Lemma tick_chassis (c : Car) :
  controllable c = true ->
  chassis (fst (tick c)) =
    if reset (keys c)
    then match chassis c with Some _ => Some respawned | None => None end
    else chassis c.
Proof. frame_cases c. Qed.

Lemma tick_thrown (c : Car) :
  controllable c = true ->
  snd (tick c) =
    if reset (keys c)
    then match chassis c with Some _ => None | None => Some TypeError end
    else None.
Proof. frame_cases c. Qed.

Lemma tick_frame (c : Car) :
  controllable (fst (tick c)) = controllable c /\ keys (fst (tick c)) = keys c.
Proof.
  unfold tick.
  destruct (execute _ _) as [[a b] e]. split; reflexivity.
Qed.

Lemma tick_vehicle (c : Car) :
  vehicle (fst (tick c)) = useEffects (actuation c) (actuation (fst (tick c))) (vehicle c).
Proof.
  unfold tick.
  destruct (execute _ _) as [[a b] e]. reflexivity.
Qed.

Lemma useEffects_same (a : Actuation) (v : option Wheels) : useEffects a a v = v.
Proof.
  unfold useEffects.
  destruct (Req_EM_T (engineForce a) (engineForce a)); [|congruence].
  destruct (Req_EM_T (steeringValue a) (steeringValue a)); [|congruence].
  destruct (Req_EM_T (brakeForce a) (brakeForce a)); [|congruence].
  reflexivity.
Qed.

Lemma useEffects_unbound (old new : Actuation) : useEffects old new None = None.
Proof.
  unfold useEffects.
  destruct (Req_EM_T (engineForce old) (engineForce new));
    destruct (Req_EM_T (steeringValue old) (steeringValue new));
    destruct (Req_EM_T (brakeForce old) (brakeForce new)); reflexivity.
Qed.

(** Without [controllable] the callback returns at line 133. *)
Lemma tick_passive (c : Car) : controllable c = false -> tick c = (c, None).
Proof.
  destruct c as [cbl k a ch veh]. simpl. intros ->.
  unfold tick, useFrame. simpl. rewrite useEffects_same. reflexivity.
Qed.

Lemma press_passive (e : KeyboardEvent) (k : Keys) : press false e k = k.
Proof. destruct k. reflexivity. Qed.

(** *** Invariants of an execution *)

Lemma run_snoc (cbl : bool) (evs : list Event) (ev : Event) :
  run cbl (evs ++ [ev]) = step (run cbl evs) ev.
Proof. unfold run. rewrite fold_left_app. reflexivity. Qed.

Lemma run_ind (cbl : bool) (P : Car -> Prop) :
  P (mount cbl) ->
  (forall c ev, controllable c = cbl -> P c -> P (step c ev)) ->
  forall evs, controllable (run cbl evs) = cbl /\ P (run cbl evs).
Proof.
  intros Hmount Hstep evs.
  induction evs as [|ev evs [Hc IH]] using rev_ind.
  - split; [reflexivity | exact Hmount].
  - rewrite run_snoc. split; [|apply Hstep; assumption].
    destruct ev; simpl; try assumption.
    rewrite (proj1 (tick_frame _)). assumption.
Qed.

Lemma controllable_run (cbl : bool) (evs : list Event) :
  controllable (run cbl evs) = cbl.
Proof. apply (run_ind cbl (fun _ => True)); trivial. Qed.

(** Section 4.1: a car that is not controllable reads no input and mutates
    nothing. *)
Lemma run_passive (evs : list Event) :
  keys (run false evs) = idle /\ actuation (run false evs) = rest.
Proof.
  apply (run_ind false (fun c => keys c = idle /\ actuation c = rest)).
  - split; reflexivity.
  - intros c ev Hc [Hk Ha]. destruct ev; simpl.
    + rewrite Hc, press_passive. split; assumption.
    + rewrite tick_passive by assumption. split; assumption.
    + split; assumption.
    + split; assumption.
    + split; assumption.
Qed.

Lemma useEffects_lengths (old new : Actuation) (w : Wheels) :
  length (wheelEngineForce w) = 4%nat ->
  length (wheelSteering w) = 4%nat ->
  length (wheelBrake w) = 4%nat ->
  exists w',
    useEffects old new (Some w) = Some w'
    /\ length (wheelEngineForce w') = 4%nat
    /\ length (wheelSteering w') = 4%nat
    /\ length (wheelBrake w') = 4%nat
    /\ (engineForce old <> engineForce new ->
        wheelEngineForce w' !! 2%nat = Some (engineForce new)
        /\ wheelEngineForce w' !! 3%nat = Some (engineForce new))
    /\ (steeringValue old <> steeringValue new ->
        wheelSteering w' !! 0%nat = Some (steeringValue new)
        /\ wheelSteering w' !! 1%nat = Some (steeringValue new))
    /\ (brakeForce old <> brakeForce new ->
        forall i, (i < 4)%nat -> wheelBrake w' !! i = Some (brakeForce new)).
Proof.
  destruct w as [we ws wb]. simpl. intros He Hs Hb.
  destruct we as [|e0 [|e1 [|e2 [|e3 [|]]]]]; try discriminate.
  destruct ws as [|s0 [|s1 [|s2 [|s3 [|]]]]]; try discriminate.
  destruct wb as [|b0 [|b1 [|b2 [|b3 [|]]]]]; try discriminate.
  unfold useEffects.
  destruct (Req_EM_T (engineForce old) (engineForce new));
    destruct (Req_EM_T (steeringValue old) (steeringValue new));
    destruct (Req_EM_T (brakeForce old) (brakeForce new));
    simpl; eexists; (split; [reflexivity|]); simpl;
    repeat split; try congruence;
    intros _ i Hi; destruct i as [|[|[|[|]]]]; try reflexivity; lia.
Qed.

Lemma run_wellBound (cbl : bool) (evs : list Event) : wellBound (run cbl evs).
Proof.
  apply (run_ind cbl wellBound).
  - exact I.
  - intros c ev Hc Hw. unfold wellBound in *. destruct ev; simpl.
    + exact Hw.
    + rewrite tick_vehicle.
      destruct (vehicle c) as [w|].
      * destruct Hw as (He & Hs & Hb).
        destruct (useEffects_lengths (actuation c) (actuation (fst (tick c))) w He Hs Hb)
          as (w' & -> & He' & Hs' & Hb' & _).
        auto.
      * rewrite useEffects_unbound. exact I.
    + destruct (vehicle c) as [w|]; [exact Hw | repeat split].
    + exact Hw.
    + destruct (vehicle c) as [w|]; [exact Hw | repeat split].
Qed.


(** *** Further facts on the component *)

(** X3.  The four wheels connect at the same points whatever the wheel radius:
    front left, front right, rear left, rear right; the first two are the
    front wheels. *)
Theorem wheel_slots (wheelRadius : R) :
  map chassisConnectionPointLocal (wheelInfos wheelRadius) =
    [(-0.6, -0.04, 1.3); (0.6, -0.04, 1.3); (-0.6, -0.04, -1.15); (0.6, -0.04, -1.15)]
  /\ map isFrontWheel (wheelInfos wheelRadius) = [true; true; false; false]
  /\ map radius (wheelInfos wheelRadius) =
     [wheelRadius; wheelRadius; wheelRadius; wheelRadius].
Proof.
  split; [|split; reflexivity].
  unfold wheelInfos, chassisWidth, chassisHeight, chassisFront, chassisBack. simpl.
  repeat (apply (f_equal2 cons) || apply (f_equal2 pair)); try reflexivity; lra.
Qed.

(** X1.  A car that is not controllable is passive: in every execution no flag
    is ever held, the three actuation values stay 0, and a tick changes
    nothing and throws nothing. *)
Theorem passive_car (evs : list Event) :
  keys (run false evs) = idle
  /\ actuation (run false evs) = rest
  /\ tick (run false evs) = (run false evs, None).
Proof.
  destruct (run_passive evs) as [Hk Ha].
  split; [exact Hk|]. split; [exact Ha|].
  apply tick_passive, controllable_run.
Qed.

(** X2.  The pushes are edge-triggered: a tick that leaves the three actuation
    values as they were makes no call to the physics api. *)
Theorem pushes_on_change (c : Car) :
  actuation (fst (tick c)) = actuation c ->
  vehicle (fst (tick c)) = vehicle c.
Proof.
  intros H. rewrite tick_vehicle, H. apply useEffects_same.
Qed.

Lemma pushes_on_change_witness :
  vehicle (fst (tick (run true [Bind respawned]))) = vehicle (run true [Bind respawned]).
Proof.
  apply (pushes_on_change (run true [Bind respawned])).
  rewrite tick_actuation by reflexivity. reflexivity.
Defined.

(** *** The claims on the drive controller *)

(** C7.  On every tick of every execution the steering output follows the
    left and right flags: left without right gives +maxSteerVal, right
    without left gives -maxSteerVal, and both or neither give 0. *)
Theorem steering_output (cbl : bool) (evs : list Event) :
  let c := run cbl evs in
  steeringValue (actuation (fst (tick c))) =
    match left (keys c), right (keys c) with
    | true, false => maxSteerVal
    | false, true => - maxSteerVal
    | true, true => 0
    | false, false => 0
    end.
Proof.
  intros c. destruct cbl.
  - rewrite tick_actuation by apply controllable_run. simpl.
    destruct (left (keys c)), (right (keys c)); reflexivity.
  - rewrite tick_passive by apply controllable_run. simpl.
    destruct (run_passive evs) as [Hk Ha]. fold c in Hk, Ha.
    rewrite Hk, Ha. reflexivity.
Qed.

(** C8.  On every tick the brake output is maxBrakeForce when the brake
    flag is held and 0 when it is not, and it is the same whatever the
    forward, backward, left and right flags of that tick are. *)
Theorem brake_output (cbl : bool) (evs : list Event) (f b l r : bool) :
  let c := run cbl evs in
  brakeForce (actuation (fst (tick c))) =
    (if brake (keys c) then maxBrakeForce else 0)
  /\ brakeForce (actuation (fst (tick (holding (withDrive f b l r (keys c)) c)))) =
     brakeForce (actuation (fst (tick c))).
Proof.
  intros c. destruct cbl.
  - rewrite !tick_actuation by (simpl; apply controllable_run). simpl. auto.
  - rewrite !tick_passive by (simpl; apply controllable_run). simpl.
    destruct (run_passive evs) as [Hk Ha]. fold c in Hk, Ha.
    rewrite Hk, Ha. auto.
Qed.

Lemma keys_only (c : Car) (kes : list KeyboardEvent) :
  actuation (fold_left step (map Key kes) c) = actuation c
  /\ controllable (fold_left step (map Key kes) c) = controllable c.
Proof.
  revert c. induction kes as [|e kes IH]; intros c; cbn [map fold_left].
  - auto.
  - destruct (IH (step c (Key e))) as [H1 H2]. rewrite H1, H2. auto.
Qed.

Lemma drive_neutral (k : Keys) (e : R) :
  xorb (forward k) (backward k) = false ->
  drive k e = if Req_EM_T e 0 then [] else [SetEngineForce 0].
Proof.
  unfold drive. destruct (forward k), (backward k); simpl; try discriminate; reflexivity.
Qed.

Lemma engine_write_neutral (k : Keys) (e v : R) :
  xorb (forward k) (backward k) = false ->
  In (SetEngineForce v) (useFrame true k e) <-> v = 0 /\ e <> 0.
Proof.
  intros Hx. unfold useFrame. simpl. rewrite drive_neutral by assumption.
  unfold steer, brakes, respawn.
  rewrite !in_app_iff.
  destruct (left k && negb (right k)), (right k && negb (left k)),
    (brake k), (reset k), (Req_EM_T e 0); simpl;
    intuition (try discriminate; try congruence).
Qed.

(** C2.  With forward and not backward the engine force becomes -maxForce,
    with backward and not forward +maxForce.  On a tick where the two flags
    are not exactly one held, the callback writes 0, and writes it only if
    the force it reads is nonzero.  So once the inputs have gone neutral,
    the tick that follows still reads the old, nonzero force and it is the
    tick after it that reads 0. *)
Theorem engine_force_lag (cbl : bool) (evs : list Event) :
  let c := run cbl evs in
  let k := keys c in
  (forward k && negb (backward k) = true ->
   engineForce (actuation (fst (tick c))) = - maxForce)
  /\ (backward k && negb (forward k) = true ->
      engineForce (actuation (fst (tick c))) = maxForce)
  /\ (xorb (forward k) (backward k) = false ->
      (forall v, In (SetEngineForce v) (useFrame cbl k (engineForce (actuation c)))
                 <-> v = 0 /\ engineForce (actuation c) <> 0)
      /\ engineForce (actuation (fst (tick c))) = 0)
  /\ (xorb (forward k) (backward k) = true ->
      forall kes : list KeyboardEvent,
        let c1 := fold_left step (map Key kes) (fst (tick c)) in
        xorb (forward (keys c1)) (backward (keys c1)) = false ->
        engineForce (actuation c1) <> 0
        /\ In (SetEngineForce 0) (useFrame cbl (keys c1) (engineForce (actuation c1)))
        /\ engineForce (actuation (fst (tick c1))) = 0
        /\ ~ In (SetEngineForce 0)
             (useFrame cbl (keys c1) (engineForce (actuation (fst (tick c1)))))).
Proof.
  intros c k.
  pose proof (controllable_run cbl evs) as Hc. fold c in Hc.
  destruct cbl.
  - pose proof (tick_actuation c Hc) as Ha. fold k in Ha.
    assert (Hread : xorb (forward k) (backward k) = true ->
                    forall kes, engineForce (actuation (fold_left step (map Key kes) (fst (tick c)))) <> 0).
    { intros Hx kes. destruct (keys_only (fst (tick c)) kes) as [-> _].
      rewrite Ha. simpl. unfold maxForce.
      destruct (forward k), (backward k); try discriminate; simpl; lra. }
    assert (Hclear : forall c' : Car,
               controllable c' = true ->
               xorb (forward (keys c')) (backward (keys c')) = false ->
               engineForce (actuation (fst (tick c'))) = 0).
    { intros c' Hc' Hx. rewrite tick_actuation by assumption. simpl.
      destruct (forward (keys c')), (backward (keys c')); try discriminate; reflexivity. }
    split; [|split; [|split]].
    + intros H. rewrite Ha. simpl. rewrite H. reflexivity.
    + intros H. rewrite Ha. simpl. rewrite H.
      destruct (forward k), (backward k); try discriminate; reflexivity.
    + intros Hx. split.
      * intros v. apply engine_write_neutral; assumption.
      * apply Hclear; assumption.
    + intros Hx kes c1 Hx1.
      assert (Hc1 : controllable c1 = true).
      { unfold c1. destruct (keys_only (fst (tick c)) kes) as [_ ->].
        rewrite (proj1 (tick_frame c)). assumption. }
      split; [apply Hread; assumption|]. split; [|split].
      * apply engine_write_neutral; [assumption|].
        split; [reflexivity | apply Hread; assumption].
      * apply Hclear; assumption.
      * intros Hin. apply engine_write_neutral in Hin; [|assumption].
        destruct Hin as [_ Hne]. apply Hne, Hclear; assumption.
  - destruct (run_passive evs) as [Hk Ha]. subst k c.
    rewrite Hk. simpl. split; [|split; [|split]]; try discriminate.
    intros _. split.
    + intros v. split; [intros [] | intros [_ Hne]].
      apply Hne. rewrite Ha. reflexivity.
    + rewrite tick_passive by assumption. simpl. rewrite Ha. reflexivity.
Qed.

(** C6, as the code has it.  On every tick where reset is held and the
    chassis handle is bound, whatever the chassis was doing, the chassis is
    put at position (0,5,0) with velocity (0,0,0), angular velocity
    (0,0.5,0) and rotation (0,-pi/4,0).  With the chassis handle unbound no
    pose is set: the callback throws.  Either way the three actuation
    values end the tick as they would have without the reset. *)
Theorem reset_pose (cbl : bool) (evs : list Event) :
  let c := run cbl evs in
  reset (keys c) = true ->
  (forall body : ChassisApi,
      chassis c = Some body ->
      chassis (fst (tick c)) =
        Some {| position := (0, 5, 0);
                velocity := (0, 0, 0);
                angularVelocity := (0, 0.5, 0);
                rotation := (0, - PI / 4, 0) |}
      /\ snd (tick c) = None)
  /\ (chassis c = None ->
      chassis (fst (tick c)) = None /\ snd (tick c) = Some TypeError)
  /\ actuation (fst (tick c)) =
     actuation (fst (tick (holding (withReset false (keys c)) c))).
Proof.
  intros c Hr.
  pose proof (controllable_run cbl evs) as Hc. fold c in Hc.
  destruct cbl.
  - rewrite tick_chassis, tick_thrown, !tick_actuation by assumption.
    rewrite Hr. simpl. split; [|split].
    + intros body ->. auto.
    + intros ->. auto.
    + reflexivity.
  - destruct (run_passive evs) as [Hk _]. fold c in Hk.
    rewrite Hk in Hr. discriminate.
Qed.

Lemma reset_pose_witness :
  let b0 := {| position := (3, 1, 4); velocity := (1, 0, 2);
               angularVelocity := (0, 0, 7); rotation := (0, 1, 0) |} in
  let c := run true [Bind b0; Key (keydown "r")] in
  chassis (fst (tick c)) = Some respawned
  /\ snd (tick c) = None
  /\ actuation (fst (tick c)) =
     actuation (fst (tick (holding (withReset false (keys c)) c))).
Proof.
  intros b0 c.
  pose proof (reset_pose true [Bind b0; Key (keydown "r")] eq_refl) as (Hbound & _ & Ha).
  destruct (Hbound b0 eq_refl) as [Hpose Hquiet].
  split; [exact Hpose|]. split; [exact Hquiet | exact Ha].
Defined.

(** C6 as the spec states it fails: reset is held on a tick of a car whose
    chassis handle is not bound yet, and no pose is set. *)
Lemma reset_sets_no_pose :
  chassis (fst (tick (run true [Key (keydown "r")]))) = None
  /\ snd (tick (run true [Key (keydown "r")])) = Some TypeError.
Proof.
  rewrite tick_chassis, tick_thrown by reflexivity. split; reflexivity.
Qed.

Lemma tick_pushes (cbl : bool) (evs : list Event) (w0 : Wheels) :
  let c := run cbl evs in
  vehicle c = Some w0 ->
  exists w,
    vehicle (fst (tick c)) = Some w
    /\ (engineForce (actuation c) <> engineForce (actuation (fst (tick c))) ->
        wheelEngineForce w !! 2%nat = Some (engineForce (actuation (fst (tick c))))
        /\ wheelEngineForce w !! 3%nat = Some (engineForce (actuation (fst (tick c)))))
    /\ (steeringValue (actuation c) <> steeringValue (actuation (fst (tick c))) ->
        wheelSteering w !! 0%nat = Some (steeringValue (actuation (fst (tick c))))
        /\ wheelSteering w !! 1%nat = Some (steeringValue (actuation (fst (tick c)))))
    /\ (brakeForce (actuation c) <> brakeForce (actuation (fst (tick c))) ->
        forall i, (i < 4)%nat ->
                  wheelBrake w !! i = Some (brakeForce (actuation (fst (tick c))))).
Proof.
  intros c Hv.
  pose proof (run_wellBound cbl evs) as Hw. fold c in Hw.
  unfold wellBound in Hw. rewrite Hv in Hw.
  destruct Hw as (He & Hs & Hbr).
  destruct (useEffects_lengths (actuation c) (actuation (fst (tick c))) w0 He Hs Hbr)
    as (w' & Hw' & _ & _ & _ & Pe & Ps & Pb).
  exists w'. rewrite tick_vehicle, Hv. auto.
Qed.

Lemma tick_without_reset (cbl : bool) (evs : list Event) :
  let c := run cbl evs in
  actuation (fst (tick c)) =
    actuation (fst (tick (holding (withReset false (keys c)) c)))
  /\ vehicle (fst (tick c)) =
     vehicle (fst (tick (holding (withReset false (keys c)) c))).
Proof.
  intros c.
  pose proof (controllable_run cbl evs) as Hc. fold c in Hc.
  assert (Ha : actuation (fst (tick c)) =
               actuation (fst (tick (holding (withReset false (keys c)) c)))).
  { destruct cbl.
    - rewrite !tick_actuation by assumption. reflexivity.
    - rewrite !tick_passive by assumption. reflexivity. }
  split; [exact Ha|].
  rewrite !tick_vehicle, <- Ha. reflexivity.
Qed.

(** C5, as the code has it.  While the vehicle handle is unbound an engine,
    steering or brake push is absorbed.  A reset while the chassis handle is
    unbound is not: the callback throws a TypeError.  The throw comes after
    the setters, so the three values, and what is pushed of them, are those
    of the same tick without reset.  Once the handles are bound no tick
    throws, a reset puts the chassis in its pose, and a changed engine force
    reaches wheels 2 and 3, a changed steering value wheels 0 and 1, a
    changed brake force all four wheels. *)
Theorem unbound_actuation (cbl : bool) (evs : list Event) :
  let c := run cbl evs in
  (vehicle c = None -> vehicle (fst (tick c)) = None)
  /\ (chassis c = None ->
      snd (tick c) = (if reset (keys c) then Some TypeError else None)
      /\ chassis (fst (tick c)) = None
      /\ actuation (fst (tick c)) =
         actuation (fst (tick (holding (withReset false (keys c)) c)))
      /\ vehicle (fst (tick c)) =
         vehicle (fst (tick (holding (withReset false (keys c)) c))))
  /\ (forall body : ChassisApi,
        let c' := step c (Bind body) in
        snd (tick c') = None
        /\ (reset (keys c') = true -> chassis (fst (tick c')) = Some respawned)
        /\ exists w,
            vehicle (fst (tick c')) = Some w
            /\ (engineForce (actuation c') <> engineForce (actuation (fst (tick c'))) ->
                wheelEngineForce w !! 2%nat = Some (engineForce (actuation (fst (tick c'))))
                /\ wheelEngineForce w !! 3%nat = Some (engineForce (actuation (fst (tick c')))))
            /\ (steeringValue (actuation c') <> steeringValue (actuation (fst (tick c'))) ->
                wheelSteering w !! 0%nat = Some (steeringValue (actuation (fst (tick c'))))
                /\ wheelSteering w !! 1%nat = Some (steeringValue (actuation (fst (tick c')))))
            /\ (brakeForce (actuation c') <> brakeForce (actuation (fst (tick c'))) ->
                forall i, (i < 4)%nat ->
                          wheelBrake w !! i = Some (brakeForce (actuation (fst (tick c')))))).
Proof.
  intros c.
  pose proof (controllable_run cbl evs) as Hc. fold c in Hc.
  split; [|split].
  - intros Hv. rewrite tick_vehicle, Hv. apply useEffects_unbound.
  - intros Hb.
    destruct (tick_without_reset cbl evs) as [Ha Hv]. fold c in Ha, Hv.
    split; [|split; [|split; assumption]].
    + destruct cbl.
      * rewrite tick_thrown by assumption. rewrite Hb. reflexivity.
      * rewrite tick_passive by assumption. simpl.
        destruct (run_passive evs) as [Hk _]. fold c in Hk. rewrite Hk. reflexivity.
    + destruct cbl.
      * rewrite tick_chassis by assumption. rewrite Hb.
        destruct (reset (keys c)); reflexivity.
      * rewrite tick_passive by assumption. exact Hb.
  - intros body c'.
    assert (Hrun : c' = run cbl (evs ++ [Bind body])) by (rewrite run_snoc; reflexivity).
    assert (Hb : chassis c' = Some body) by reflexivity.
    pose proof (controllable_run cbl (evs ++ [Bind body])) as Hc'. rewrite <- Hrun in Hc'.
    split; [|split].
    + destruct cbl.
      * rewrite tick_thrown by assumption. rewrite Hb. destruct (reset (keys c')); reflexivity.
      * rewrite tick_passive by assumption. reflexivity.
    + intros Hr. destruct cbl.
      * rewrite tick_chassis by assumption. rewrite Hr, Hb. reflexivity.
      * destruct (run_passive (evs ++ [Bind body])) as [Hk _]. rewrite <- Hrun in Hk.
        rewrite Hk in Hr. discriminate.
    + destruct (vehicle c') as [w0|] eqn:Hv'.
      * rewrite Hrun in Hv' |- *.
        apply (tick_pushes cbl (evs ++ [Bind body]) w0). exact Hv'.
      * unfold c' in Hv'. simpl in Hv'. destruct (vehicle c); discriminate.
Qed.

(** C5 as the spec states it fails: with the chassis handle unbound, the
    tick on which reset is held throws. *)
Lemma reset_unbound_throws :
  snd (tick (run true [Key (keydown "r")])) = Some TypeError.
Proof. rewrite tick_thrown by reflexivity. reflexivity. Qed.

Lemma unbound_actuation_witness :
  let c := run true [BindVehicle; Key (keydown "w"); Key (keydown "r")] in
  snd (tick c) = Some TypeError
  /\ chassis (fst (tick c)) = None
  /\ actuation (fst (tick c)) =
     actuation (fst (tick (holding (withReset false (keys c)) c)))
  /\ vehicle (fst (tick c)) =
     vehicle (fst (tick (holding (withReset false (keys c)) c))).
Proof.
  intros c.
  apply (proj1 (proj2 (unbound_actuation true
                         [BindVehicle; Key (keydown "w"); Key (keydown "r")]))).
  reflexivity.
Defined.

(** The two handles are independent: with only the vehicle handle bound, the
    tick that throws on the reset has already set the engine force, and the
    push of it reaches wheels 2 and 3. *)
Example throwing_tick_still_pushes :
  let c := run true [BindVehicle; Key (keydown "w"); Key (keydown "r")] in
  snd (tick c) = Some TypeError
  /\ engineForce (actuation (fst (tick c))) = - maxForce
  /\ (wheelEngineForce <$> vehicle (fst (tick c))) = Some [0; 0; - maxForce; - maxForce].
Proof.
  intros c.
  rewrite tick_thrown, tick_vehicle, tick_actuation by reflexivity.
  split; [reflexivity|]. split; [reflexivity|].
  unfold useEffects, maxForce, maxSteerVal, maxBrakeForce. simpl.
  repeat match goal with
         | |- context [Req_dec_T ?a ?b] => destruct (Req_dec_T a b); try lra
         end.
  reflexivity.
Qed.

Lemma engine_force_lag_witness :
  let c := run true [Key (keydown "w")] in
  let c1 := fold_left step (map Key [keyup "w"]) (fst (tick c)) in
  engineForce (actuation c1) <> 0
  /\ In (SetEngineForce 0) (useFrame true (keys c1) (engineForce (actuation c1)))
  /\ engineForce (actuation (fst (tick c1))) = 0
  /\ ~ In (SetEngineForce 0)
       (useFrame true (keys c1) (engineForce (actuation (fst (tick c1))))).
Proof.
  intros c c1.
  apply (proj2 (proj2 (proj2 (engine_force_lag true [Key (keydown "w")])))).
  - reflexivity.
  - unfold c1, c. cbn [map fold_left step keys controllable].
    rewrite (proj1 (tick_frame _)), (proj2 (tick_frame _)). reflexivity.
Defined.

End CarFacts.

(** * Facts about Sensors.tsx *)
Module SensorsFacts.
Import Sensors.

Section Constants.

Variables SENSOR_HEIGHT SENSOR_DISTANCE : R.
Variable ON_SENSORS_THROTTLE_TIMEOUT : nat.

Abbreviation Sensors := (Sensors SENSOR_HEIGHT SENSOR_DISTANCE).
Abbreviation runTimers := (runTimers ON_SENSORS_THROTTLE_TIMEOUT).
Abbreviation onRay := (onRay ON_SENSORS_THROTTLE_TIMEOUT).
Abbreviation step := (step SENSOR_HEIGHT SENSOR_DISTANCE ON_SENSORS_THROTTLE_TIMEOUT).
Abbreviation run := (run SENSOR_HEIGHT SENSOR_DISTANCE ON_SENSORS_THROTTLE_TIMEOUT).

(** *** Construction *)

Lemma Array_fill_negative {A : Type} (len : Z) (value : A) :
  (len < 0)%Z -> Array_fill len value = inl RangeError.
Proof.
  intros H. unfold Array_fill.
  destruct (Z.ltb_spec len 0); [reflexivity | lia].
Qed.

Lemma Array_fill_above {A : Type} (len : Z) (value : A) :
  (2 ^ 32 <= len)%Z -> Array_fill len value = inl RangeError.
Proof.
  intros H. unfold Array_fill.
  destruct (Z.leb_spec (2 ^ 32) len); [rewrite orb_true_r; reflexivity | lia].
Qed.

Lemma Array_fill_length {A : Type} (len : Z) (value : A) :
  (0 <= len < 2 ^ 32)%Z -> Array_fill len value = inr (replicate (Z.to_nat len) value).
Proof.
  intros H. unfold Array_fill.
  destruct (Z.ltb_spec len 0); [lia|].
  destruct (Z.leb_spec (2 ^ 32) len); [lia | reflexivity].
Qed.

Lemma Array_fill_built {A : Type} (len : Z) (value : A) (array : list A) :
  Array_fill len value = inr array ->
  (0 <= len < 2 ^ 32)%Z /\ array = replicate (Z.to_nat len) value.
Proof.
  unfold Array_fill.
  destruct (Z.ltb_spec len 0); [discriminate|].
  destruct (Z.leb_spec (2 ^ 32) len); [discriminate|].
  simpl. intros [= <-]. split; [lia | reflexivity].
Qed.

(** C3, as the code has it.  A negative sensorsNum makes the construction
    raise, a RangeError from the allocation of line 20, before any ray is
    built; sensorsNum = 0 raises nothing and gives the empty ring.  In both
    cases no ray exists afterwards. *)
Theorem nonpositive_sensorsNum (sensorsNum : Z) (visible : bool) (mounted : option Instance) :
  (sensorsNum <= 0)%Z ->
  raysBuilt (Sensors sensorsNum visible mounted) = []
  /\ ((sensorsNum < 0)%Z -> Sensors sensorsNum visible mounted = inl RangeError)
  /\ (sensorsNum = 0%Z ->
      exists inst, Sensors sensorsNum visible mounted = inr (inst, [])).
Proof.
  intros Hle. unfold Sensors.Sensors.
  destruct (Z.ltb_spec sensorsNum 0) as [Hneg|Hpos].
  - rewrite Array_fill_negative by assumption.
    split; [reflexivity|]. split; [reflexivity | lia].
  - assert (sensorsNum = 0%Z) as -> by lia.
    rewrite !Array_fill_length by lia.
    split; [reflexivity|]. split; [lia|].
    intros _. eexists. reflexivity.
Qed.

(** C9, as the code has it.  For sensorsNum from 1 to 2^32 - 1, the
    lengths an array can have, every render builds sensorsNum rays; ray i
    has index i, runs from (0,H,0) to (0,H,D) and is turned by
    (2 pi / sensorsNum) * i.  The rays depend on nothing a render changes.
    Eight sensors give the angles 0, pi/4, ..., 7 pi/4 in index order.  From
    2^32 on the construction raises a RangeError and builds no ray. *)
Theorem sensor_ring (sensorsNum : Z) (visible : bool) (mounted : option Instance) :
  (1 <= sensorsNum)%Z ->
  ((sensorsNum < 2 ^ 32)%Z ->
   exists inst rays,
     Sensors sensorsNum visible mounted = inr (inst, rays)
     /\ length rays = Z.to_nat sensorsNum
     /\ (forall i, (i < Z.to_nat sensorsNum)%nat ->
           rays !! i =
             Some {| index := i;
                     from := (0, SENSOR_HEIGHT, 0);
                     to := (0, SENSOR_HEIGHT, SENSOR_DISTANCE);
                     angleX := 2 * PI / IZR sensorsNum * INR i;
                     visible := visible |})
     /\ (sensorsNum = 8%Z ->
         map angleX rays =
           [0; PI / 4; PI / 2; 3 * PI / 4; PI; 5 * PI / 4; 3 * PI / 2; 7 * PI / 4]))
  /\ ((2 ^ 32 <= sensorsNum)%Z ->
      Sensors sensorsNum visible mounted = inl RangeError
      /\ raysBuilt (Sensors sensorsNum visible mounted) = []).
Proof.
  intros Hn. unfold Sensors.Sensors. split.
  - intros Hmax. rewrite !Array_fill_length by lia.
    eexists. eexists. split; [reflexivity|].
    split; [|split].
    + rewrite length_imap, length_replicate. reflexivity.
    + intros i Hi. rewrite list_lookup_imap.
      rewrite (proj2 (lookup_replicate _ _ null i)) by auto. reflexivity.
    + intros ->. simpl.
      repeat (apply (f_equal2 cons); [lra|]). reflexivity.
  - intros Hmax. rewrite Array_fill_above by assumption. split; reflexivity.
Qed.

(** *** Reports and deliveries *)

Lemma runTimers_deliveries (now : nat) (s : Instance) (d : Delivery) :
  In d (onSensors (runTimers now s)) ->
  In d (onSensors s) \/ snd d = sensorDistances s.
Proof.
  unfold Sensors.runTimers. simpl. rewrite in_app_iff, in_map_iff.
  intros [H | (t & <- & _)]; auto.
Qed.

Lemma onRay_vector (now index : nat) (distance : option R) (s : Instance) :
  sensorDistances (onRay now index distance s) =
    Array_set (sensorDistances s) index (stored distance).
Proof.
  unfold Sensors.onRay.
  destruct (throttled _ _ _) as [[] th]; reflexivity.
Qed.

Lemma onRay_throttled (now index : nat) (distance : option R) (s : Instance) :
  onSensorsCallbackThrottled (onRay now index distance s) =
    snd (throttled ON_SENSORS_THROTTLE_TIMEOUT now
           (onSensorsCallbackThrottled (runTimers now s))).
Proof.
  unfold Sensors.onRay.
  destruct (throttled _ _ _) as [[] th]; reflexivity.
Qed.

Lemma onRay_deliveries (now index : nat) (distance : option R) (s : Instance) (d : Delivery) :
  In d (onSensors (onRay now index distance s)) ->
  In d (onSensors (runTimers now s))
  \/ snd d = Array_set (sensorDistances s) index (stored distance).
Proof.
  unfold Sensors.onRay.
  destruct (throttled _ _ _) as [[] th]; simpl; [|auto].
  rewrite in_app_iff. intros [H | [<- | []]]; auto.
Qed.

(** C4, as the code has it.  Every ray report writes its own element and
    evaluates the throttled publish right after that single write; when the
    throttle is idle at that moment the consumer is called at once, with a
    vector in which this report is the only change. *)
Theorem publish_after_each_ray (now index : nat) (distance : option R) (s : Instance) :
  sensorDistances (onRay now index distance s) =
    Array_set (sensorDistances s) index (stored distance)
  /\ onSensorsCallbackThrottled (onRay now index distance s) =
     snd (throttled ON_SENSORS_THROTTLE_TIMEOUT now
            (onSensorsCallbackThrottled (runTimers now s)))
  /\ (onSensorsCallbackThrottled (runTimers now s) = Idle ->
      onSensors (onRay now index distance s) =
        onSensors (runTimers now s)
        ++ [(now, Array_set (sensorDistances s) index (stored distance))]).
Proof.
  split; [apply onRay_vector|]. split; [apply onRay_throttled|].
  intros Hidle. unfold Sensors.onRay. rewrite Hidle. reflexivity.
Qed.

(** *** The delivered vectors *)

Lemma Array_set_length (array : list SensorValue) (index : nat) (value : SensorValue) :
  (index < length array)%nat ->
  length (Array_set array index value) = length array.
Proof.
  intros H. unfold Array_set.
  destruct (Nat.ltb_spec index (length array)); [|lia].
  apply length_insert.
Qed.










End Constants.

Lemma sensor_ring_witness :
  exists inst rays,
    Sensors.Sensors 1 4 8 false None = inr (inst, rays)
    /\ length rays = 8%nat
    /\ (forall i, (i < 8)%nat ->
          rays !! i =
            Some {| index := i; from := (0, 1, 0); to := (0, 1, 4);
                    angleX := 2 * PI / 8 * INR i; visible := false |})
    /\ (8%Z = 8%Z ->
        map angleX rays =
          [0; PI / 4; PI / 2; 3 * PI / 4; PI; 5 * PI / 4; 3 * PI / 2; 7 * PI / 4]).
Proof. apply (proj1 (sensor_ring 1 4 8 false None ltac:(lia))). lia. Defined.

Lemma nonpositive_sensorsNum_witness :
  raysBuilt (Sensors.Sensors 1 4 (-2) false None) = []
  /\ ((-2 < 0)%Z -> Sensors.Sensors 1 4 (-2) false None = inl RangeError)
  /\ ((-2)%Z = 0%Z ->
      exists inst, Sensors.Sensors 1 4 (-2) false None = inr (inst, [])).
Proof. apply (nonpositive_sensorsNum 1 4 (-2) false None). lia. Defined.

(** C9 as the spec states it fails at sensorsNum = 2^32: no array of that
    length exists, and the construction raises. *)
Lemma ring_above_array_length :
  Sensors.Sensors 1 4 4294967296 false None = inl RangeError.
Proof. reflexivity. Qed.

(** C3 as the spec states it fails at sensorsNum = 0: nothing is raised. *)
Lemma zero_sensors_accepted :
  Sensors.Sensors 1 4 0 false None =
    inr ({| sensorDistances := [];
            onSensorsCallbackThrottled := Idle;
            superseded := [];
            onSensors := [] |}, []).
Proof. reflexivity. Qed.

(** C4 as the spec states it fails: the first ray of the first tick of a
    two-ray ring reports, and the consumer is handed a vector in which ray 1
    has not been written. *)
Lemma partial_vector_published :
  Sensors.run 1 4 50 2 false [Ray 0 0 (Some 3)] =
    inr {| sensorDistances := [number 3; undefined];
           onSensorsCallbackThrottled := Scheduled false 50;
           superseded := [];
           onSensors := [(0%nat, [number 3; undefined])] |}.
Proof. reflexivity. Qed.

Lemma publish_after_each_ray_witness :
  let s := {| sensorDistances := [number 1; null];
              onSensorsCallbackThrottled := Scheduled true 40;
              superseded := [];
              onSensors := [] |} in
  onSensors (Sensors.onRay 50 100 0 (Some 3) s) =
    onSensors (Sensors.runTimers 50 100 s) ++ [(100%nat, [number 3; null])].
Proof.
  intros s.
  apply (proj2 (proj2 (publish_after_each_ray 50 100 0 (Some 3) s))).
  reflexivity.
Defined.



(** C1.  Within one render the four requests at 0, 10, 20 and 30 ms of a
    50 ms window reach the consumer twice, at 0 and at 50 with the last
    state.  But a render rebuilds the throttled callback: whatever was
    requested before it, the first request after a render is delivered at
    once.  So with a render between the requests at 0 and 10 ms the
    consumer is called twice inside one window, and with a render before
    each of the four requests it is called four times. *)
Theorem throttle_rebuilt_by_render (SENSOR_HEIGHT SENSOR_DISTANCE : R) :
  let step := Sensors.step SENSOR_HEIGHT SENSOR_DISTANCE in
  let run := Sensors.run SENSOR_HEIGHT SENSOR_DISTANCE 50 1 false in
  (forall (wait : nat) (sensorsNum : Z) (visible : bool) (s : Instance)
          (now index : nat) (distance : option R),
      (0 <= sensorsNum < 2 ^ 32)%Z ->
      let rendered := step wait sensorsNum visible s Render in
      onSensors (onRay wait now index distance rendered) =
        onSensors (runTimers wait now rendered)
        ++ [(now, Array_set (sensorDistances s) index (stored distance))])
  /\ deliveries (run [Ray 0 0 (Some 1); Ray 10 0 (Some 2); Ray 20 0 (Some 3);
                      Ray 30 0 (Some 4); Elapse 50]) =
     [(0%nat, [number 1]); (50%nat, [number 4])]
  /\ deliveries (run [Ray 0 0 (Some 1); Render; Ray 10 0 (Some 2)]) =
     [(0%nat, [number 1]); (10%nat, [number 2])]
  /\ deliveries (run [Ray 0 0 (Some 1); Render; Ray 10 0 (Some 2); Render;
                      Ray 20 0 (Some 3); Render; Ray 30 0 (Some 4); Elapse 100]) =
     [(0%nat, [number 1]); (10%nat, [number 2]); (20%nat, [number 3]);
      (30%nat, [number 4])].
Proof.
  intros step run. split.
  - intros wait sensorsNum visible s now index distance Hn rendered.
    unfold rendered, step, Sensors.step, Sensors.Sensors.
    rewrite !Array_fill_length by assumption.
    reflexivity.
  - unfold run. repeat split; reflexivity.
Qed.

End SensorsFacts.

(** * Further facts about Car.tsx *)
Module CarMore.
Import Car CarFacts.

(** *** The key flags *)

(** X4.  The flag of a listening [useKeyPress] is decided by the last event
    on one of its keys alone: it is up after a keyup and down after a
    keydown of any of them, and as it was when no such event came.  So with
    two keys on one flag, releasing either clears the flag while the other
    is still held. *)
Theorem key_flag_last_event (target : list string) (events : list KeyboardEvent)
    (keyPressed : bool) :
  keyPressedAfter target true events keyPressed =
    match List.find (fun e => includes target (keyOf e)) (rev events) with
    | Some e => isDown e
    | None => keyPressed
    end.
Proof.
  induction events as [|e events IH] using rev_ind.
  - reflexivity.
  - unfold keyPressedAfter in *. rewrite fold_left_app, rev_app_distr. simpl.
    rewrite IH. unfold useKeyPress, downHandler, upHandler. simpl.
    destruct e as [key|key]; simpl; destruct (includes target key); reflexivity.
Qed.

Ltac by_key key :=
  repeat match goal with
    | |- context [String.eqb key ?s] =>
        destruct (String.eqb_spec key s) as [->|?]; [simpl | ]
    end.

(** X5.  The six flags listen to disjoint keys: a keyboard event changes
    at most one of them. *)
Theorem one_flag_per_key (controllable : bool) (e : KeyboardEvent) (k : Keys) :
  (flagsChanged k (press controllable e k) <= 1)%nat.
Proof.
  destruct controllable;
    [|rewrite press_passive; destruct k as [[] [] [] [] [] []]; cbv; lia].
  destruct k as [f b l r br rs].
  unfold flagsChanged, press, useKeyPress, downHandler, upHandler, includes.
  destruct e as [key|key]; simpl; by_key key;
    destruct f, b, l, r, br, rs; simpl; lia.
Qed.

(** *** The actuation values *)

(** X6.  In every execution the three actuation values stay among the
    values the callback writes: the steering value is -maxSteerVal, 0 or
    maxSteerVal, the engine force -maxForce, 0 or maxForce, and the brake
    force 0 or maxBrakeForce. *)
Theorem actuation_values (cbl : bool) (evs : list Event) :
  let a := actuation (run cbl evs) in
  (steeringValue a = - maxSteerVal \/ steeringValue a = 0 \/ steeringValue a = maxSteerVal)
  /\ (engineForce a = - maxForce \/ engineForce a = 0 \/ engineForce a = maxForce)
  /\ (brakeForce a = 0 \/ brakeForce a = maxBrakeForce).
Proof.
  apply (run_ind cbl
           (fun c =>
              (steeringValue (actuation c) = - maxSteerVal
               \/ steeringValue (actuation c) = 0
               \/ steeringValue (actuation c) = maxSteerVal)
              /\ (engineForce (actuation c) = - maxForce
                  \/ engineForce (actuation c) = 0
                  \/ engineForce (actuation c) = maxForce)
              /\ (brakeForce (actuation c) = 0
                  \/ brakeForce (actuation c) = maxBrakeForce))).
  - simpl. auto.
  - intros c ev Hc IH. destruct ev; simpl; try exact IH.
    destruct cbl.
    + rewrite tick_actuation by assumption. simpl.
      destruct (left (keys c)), (right (keys c)), (forward (keys c)),
        (backward (keys c)), (brake (keys c)); simpl; auto.
    + rewrite tick_passive by assumption. exact IH.
Qed.

Lemma Car_ext (c c' : Car) :
  controllable c = controllable c' ->
  keys c = keys c' ->
  actuation c = actuation c' ->
  chassis c = chassis c' ->
  vehicle c = vehicle c' ->
  c = c'.
Proof.
  destruct c, c'. simpl. intros. subst. reflexivity.
Qed.

(** X7.  One tick settles the car: a second tick under the same flags
    leaves every part of the state as the first left it, pushes nothing to
    the wheels, and throws exactly if the first did. *)
Theorem tick_settles (c : Car) : tick (fst (tick c)) = tick c.
Proof.
  destruct (controllable c) eqn:Hc.
  - assert (Hc' : controllable (fst (tick c)) = true)
      by (rewrite (proj1 (tick_frame c)); exact Hc).
    pose proof (proj2 (tick_frame c)) as Hk.
    assert (Ha : actuation (fst (tick (fst (tick c)))) = actuation (fst (tick c))).
    { rewrite !tick_actuation by assumption. rewrite Hk. reflexivity. }
    apply injective_projections.
    + apply Car_ext.
      * apply tick_frame.
      * apply tick_frame.
      * exact Ha.
      * rewrite !tick_chassis by assumption. rewrite Hk.
        destruct (reset (keys c)), (chassis c); reflexivity.
      * rewrite tick_vehicle, Ha. apply useEffects_same.
    + rewrite !tick_thrown by assumption. rewrite Hk.
      rewrite tick_chassis by assumption.
      destruct (reset (keys c)), (chassis c); reflexivity.
  - rewrite !tick_passive; rewrite ?tick_passive; auto.
Qed.

(** *** The wheels *)

Lemma useEffects_mirrored (old new : Actuation) (w : Wheels) :
  mirrored old w ->
  exists w', useEffects old new (Some w) = Some w' /\ mirrored new w'.
Proof.
  destruct w as [we ws wb]. unfold mirrored. simpl. intros (-> & -> & ->).
  unfold useEffects.
  destruct (Req_EM_T (engineForce old) (engineForce new)) as [He|He];
    destruct (Req_EM_T (steeringValue old) (steeringValue new)) as [Hs|Hs];
    destruct (Req_EM_T (brakeForce old) (brakeForce new)) as [Hb|Hb];
    simpl; eexists; (split; [reflexivity|]); simpl;
    rewrite ?He, ?Hs, ?Hb; auto.
Qed.

(** X8.  When the handles are bound before anything else happens, the
    wheels always hold the current values: the engine force on wheels 2
    and 3, the steering value on wheels 0 and 1, the brake force on all
    four, and 0 in the other slots. *)
Theorem wheels_mirror_actuation (cbl : bool) (body : ChassisApi) (evs : list Event) :
  exists w,
    vehicle (run cbl (Bind body :: evs)) = Some w
    /\ mirrored (actuation (run cbl (Bind body :: evs))) w.
Proof.
  induction evs as [|ev evs (w & Hv & Hm)] using rev_ind.
  - exists restingWheels. split; [reflexivity|]. repeat split.
  - change (Bind body :: evs ++ [ev]) with ((Bind body :: evs) ++ [ev]).
    rewrite run_snoc. destruct ev; simpl.
    + exists w. auto.
    + rewrite tick_vehicle, Hv.
      apply useEffects_mirrored. exact Hm.
    + rewrite Hv. exists w. auto.
    + exists w. auto.
    + rewrite Hv. exists w. auto.
Qed.

Lemma useEffects_roles (old new : Actuation) (v : option Wheels) :
  match v with Some w => rolesKept w | None => True end ->
  match useEffects old new v with Some w => rolesKept w | None => True end.
Proof.
  destruct v as [[we ws wb]|]; [|rewrite useEffects_unbound; auto].
  unfold rolesKept, useEffects. simpl. intros (H0 & H1 & H2 & H3).
  destruct (Req_EM_T (engineForce old) (engineForce new));
    destruct (Req_EM_T (steeringValue old) (steeringValue new));
    destruct (Req_EM_T (brakeForce old) (brakeForce new));
    simpl; rewrite ?list_lookup_insert_ne by lia; auto.
Qed.

(** X9.  In no execution does an engine force reach a front wheel (0, 1)
    or a steering value a rear wheel (2, 3): those slots stay 0. *)
Theorem wheel_roles (cbl : bool) (evs : list Event) (w : Wheels) :
  vehicle (run cbl evs) = Some w ->
  wheelEngineForce w !! 0%nat = Some 0
  /\ wheelEngineForce w !! 1%nat = Some 0
  /\ wheelSteering w !! 2%nat = Some 0
  /\ wheelSteering w !! 3%nat = Some 0.
Proof.
  intros Hv.
  assert (H : match vehicle (run cbl evs) with Some w => rolesKept w | None => True end).
  { apply (run_ind cbl (fun c => match vehicle c with Some w => rolesKept w | None => True end)).
    - exact I.
    - intros c ev _ IH. destruct ev; simpl.
      + exact IH.
      + rewrite tick_vehicle. apply useEffects_roles. exact IH.
      + destruct (vehicle c); [exact IH | repeat split].
      + exact IH.
      + destruct (vehicle c); [exact IH | repeat split]. }
  rewrite Hv in H. exact H.
Qed.

Lemma wheel_roles_witness :
  exists w,
    vehicle (run true [Bind respawned]) = Some w
    /\ wheelEngineForce w !! 0%nat = Some 0
    /\ wheelEngineForce w !! 1%nat = Some 0
    /\ wheelSteering w !! 2%nat = Some 0
    /\ wheelSteering w !! 3%nat = Some 0.
Proof.
  exists restingWheels. split; [reflexivity|].
  apply (wheel_roles true [Bind respawned] restingWheels). reflexivity.
Defined.

(** *** A tick that throws *)

(** X16.  The throw of a reset on an unbound chassis comes after the
    setters: the tick still leaves the three actuation values exactly as
    the same tick without reset does, which throws nothing. *)
Theorem throw_after_setters (c : Car) :
  controllable c = true ->
  reset (keys c) = true ->
  chassis c = None ->
  snd (tick c) = Some TypeError
  /\ chassis (fst (tick c)) = None
  /\ actuation (fst (tick c)) =
     actuation (fst (tick (holding (withReset false (keys c)) c)))
  /\ snd (tick (holding (withReset false (keys c)) c)) = None.
Proof.
  intros Hc Hr Hb.
  rewrite !tick_thrown, tick_chassis, !tick_actuation by assumption.
  rewrite Hr, Hb. simpl. auto.
Qed.

Lemma throw_after_setters_witness :
  let c := run true [Key (keydown "w"); Key (keydown "r")] in
  snd (tick c) = Some TypeError
  /\ chassis (fst (tick c)) = None
  /\ actuation (fst (tick c)) =
     actuation (fst (tick (holding (withReset false (keys c)) c)))
  /\ snd (tick (holding (withReset false (keys c)) c)) = None.
Proof.
  intros c. apply (throw_after_setters c); reflexivity.
Defined.

End CarMore.

(** * Further facts about Sensors.tsx *)
Module SensorsMore.
Import Sensors SensorsFacts.

(** *** The vector under reports *)

Lemma Array_set_read (array : list SensorValue) (index : nat) (value : SensorValue) :
  Array_set array index value !! index = Some value.
Proof.
  unfold Array_set. destruct (Nat.ltb_spec index (length array)) as [Hlt|Hge].
  - rewrite list_lookup_insert. rewrite decide_True by auto. reflexivity.
  - rewrite lookup_app_r by lia.
    rewrite lookup_app_r by (rewrite length_replicate; lia).
    rewrite length_replicate.
    replace (index - length array - (index - length array))%nat with 0%nat by lia.
    reflexivity.
Qed.

Lemma Array_set_other (array : list SensorValue) (index j : nat) (value : SensorValue) :
  j <> index ->
  Array_set array index value !! j =
    if (j <? length array)%nat then array !! j
    else if (j <? index)%nat then Some undefined
    else None.
Proof.
  intros Hne. unfold Array_set.
  destruct (Nat.ltb_spec index (length array)) as [Hlt|Hge].
  - rewrite list_lookup_insert_ne by auto.
    destruct (Nat.ltb_spec j (length array)) as [Hj|Hj]; [reflexivity|].
    rewrite lookup_ge_None_2 by lia.
    destruct (Nat.ltb_spec j index); [lia | reflexivity].
  - destruct (Nat.ltb_spec j (length array)) as [Hj|Hj].
    + rewrite lookup_app_l by lia. reflexivity.
    + rewrite lookup_app_r by lia.
      destruct (Nat.ltb_spec j index) as [Hji|Hji].
      * rewrite lookup_app_l by (rewrite length_replicate; lia).
        apply lookup_replicate. split; [reflexivity | lia].
      * apply lookup_ge_None_2.
        rewrite length_app, length_replicate. simpl. lia.
Qed.


(** X10.  A report is read back and disturbs nothing else: after
    onRay(index, distance) element index holds the number, or null for a
    missing distance, whatever the throttle does with the publish, and
    every other element of the vector is as before. *)
Theorem report_read_back (wait now index : nat) (distance : option R) (s : Instance) :
  sensorDistances (onRay wait now index distance s) !! index = Some (stored distance)
  /\ forall j, j <> index -> (j < length (sensorDistances s))%nat ->
       sensorDistances (onRay wait now index distance s) !! j = sensorDistances s !! j.
Proof.
  rewrite onRay_vector. split.
  - apply Array_set_read.
  - intros j Hne Hj. rewrite Array_set_other by assumption.
    destruct (Nat.ltb_spec j (length (sensorDistances s))); [reflexivity | lia].
Qed.


Lemma Array_set_inside (array : list SensorValue) (index : nat) (value : SensorValue) :
  (index < length array)%nat -> Array_set array index value = <[index := value]> array.
Proof.
  intros H. unfold Array_set.
  destruct (Nat.ltb_spec index (length array)); [reflexivity | lia].
Qed.

(** X17.  The vector after several reports does not depend on their
    order: reports of two different rays of the ring commute, and of two
    reports of one ray the later wins. *)
Theorem reports_commute (wait now now' i j : nat) (di dj : option R) (s : Instance) :
  (i < length (sensorDistances s))%nat ->
  (j < length (sensorDistances s))%nat ->
  (i <> j ->
   sensorDistances (onRay wait now' j dj (onRay wait now i di s)) =
     sensorDistances (onRay wait now' i di (onRay wait now j dj s)))
  /\ sensorDistances (onRay wait now' i dj (onRay wait now i di s)) =
     sensorDistances (onRay wait now' i dj s).
Proof.
  intros Hi Hj. rewrite !onRay_vector.
  rewrite !Array_set_inside
    by (rewrite ?Array_set_length, ?length_insert by assumption; assumption).
  split.
  - intros Hne. apply list_insert_insert_ne. auto.
  - apply list_insert_insert_eq.
Qed.

Lemma reports_commute_witness :
  let s := {| sensorDistances := [undefined; undefined; undefined];
              onSensorsCallbackThrottled := Idle;
              superseded := [];
              onSensors := [] |} in
  (0%nat <> 2%nat ->
   sensorDistances (onRay 50 16 2 None (onRay 50 16 0 (Some 3) s)) =
     sensorDistances (onRay 50 16 0 (Some 3) (onRay 50 16 2 None s)))
  /\ sensorDistances (onRay 50 16 0 None (onRay 50 16 0 (Some 3) s)) =
     sensorDistances (onRay 50 16 0 None s).
Proof.
  intros s. apply (reports_commute 50 16 16 0 2 (Some 3) None s); simpl; lia.
Defined.

(** *** Renders *)

Lemma Sensors_built (H D : R) (sensorsNum : Z) (visible : bool)
    (mounted : option Instance) (inst : Instance) (rays : list SensorRay) :
  Sensors H D sensorsNum visible mounted = inr (inst, rays) ->
  (0 <= sensorsNum < 2 ^ 32)%Z
  /\ rays = imap (fun index _ =>
                    {| index := index;
                       from := (0, H, 0);
                       to := (0, H, D);
                       angleX := 2 * PI / IZR sensorsNum * INR index;
                       visible := visible |})
              (replicate (Z.to_nat sensorsNum) null).
Proof.
  unfold Sensors.
  destruct (Array_fill sensorsNum undefined) as [e|initial] eqn:Hfill; [discriminate|].
  apply Array_fill_built in Hfill as [Hn _].
  rewrite Array_fill_length by assumption.
  intros Heq. injection Heq as _ <-. auto.
Qed.



(** *** The ring *)

(** X13.  The rays of a ring point in different directions inside one
    turn: every angle lies in [0, 2 pi), and the angle grows strictly with
    the index. *)
Theorem ring_angles (H D : R) (sensorsNum : Z) (visible : bool)
    (mounted : option Instance) (inst : Instance) (rays : list SensorRay)
    (i j : nat) (ray_i ray_j : SensorRay) :
  Sensors H D sensorsNum visible mounted = inr (inst, rays) ->
  rays !! i = Some ray_i ->
  rays !! j = Some ray_j ->
  0 <= angleX ray_i < 2 * PI
  /\ ((i < j)%nat -> angleX ray_i < angleX ray_j).
Proof.
  intros Hs Hi Hj. apply Sensors_built in Hs as [[Hn _] ->].
  rewrite list_lookup_imap in Hi, Hj.
  destruct (replicate (Z.to_nat sensorsNum) null !! i) eqn:Ei; [|discriminate].
  destruct (replicate (Z.to_nat sensorsNum) null !! j) eqn:Ej; [|discriminate].
  apply lookup_replicate in Ei as [_ Ei]. apply lookup_replicate in Ej as [_ Ej].
  simpl in Hi, Hj. injection Hi as <-. injection Hj as <-. simpl.
  assert (Hnat : IZR sensorsNum = INR (Z.to_nat sensorsNum)).
  { rewrite INR_IZR_INZ, Z2Nat.id by assumption. reflexivity. }
  rewrite Hnat.
  pose proof PI_RGT_0 as Hpi.
  assert (Hi' : INR i < INR (Z.to_nat sensorsNum)) by (apply lt_INR; exact Ei).
  pose proof (pos_INR i) as Hi0.
  assert (Hpos : 0 < INR (Z.to_nat sensorsNum)) by lra.
  assert (Hstep : 0 < 2 * PI / INR (Z.to_nat sensorsNum)).
  { apply Rdiv_lt_0_compat; lra. }
  split; [split|].
  - apply Rmult_le_pos; lra.
  - replace (2 * PI) with (2 * PI / INR (Z.to_nat sensorsNum) * INR (Z.to_nat sensorsNum)) at 2
      by (field; lra).
    apply Rmult_lt_compat_l; assumption.
  - intros Hij. apply Rmult_lt_compat_l; [assumption|]. apply lt_INR. exact Hij.
Qed.

Lemma ring_angles_witness :
  0 <= 2 * PI / 8 * INR 1 < 2 * PI
  /\ ((1 < 3)%nat -> 2 * PI / 8 * INR 1 < 2 * PI / 8 * INR 3).
Proof.
  apply (ring_angles 1 4 8 false None _ _ 1 3
           {| index := 1; from := (0, 1, 0); to := (0, 1, 4);
              angleX := 2 * PI / 8 * INR 1; visible := false |}
           {| index := 3; from := (0, 1, 0); to := (0, 1, 4);
              angleX := 2 * PI / 8 * INR 3; visible := false |} eq_refl);
    reflexivity.
Defined.

(** *** The obstacles *)

Section Scene.

Variable getObjectByName : Object3D -> string -> option Object3D.
Variable CHASSIS_OBJECT_NAME : string.

Abbreviation obstaclesAmong := (obstaclesAmong getObjectByName CHASSIS_OBJECT_NAME).
Abbreviation obstacles := (obstacles getObjectByName CHASSIS_OBJECT_NAME).

Lemma obstaclesAmong_cons (node : Object3D) (nodes : list Object3D) :
  obstaclesAmong (node :: nodes) =
    (if String.eqb (type node) "Group"
     then match getObjectByName node CHASSIS_OBJECT_NAME with
          | Some o => if isObstacle (Some o) then [o] else []
          | None => []
          end
     else [])
    ++ obstaclesAmong nodes.
Proof.
  unfold Sensors.obstaclesAmong. cbn [List.filter].
  destruct (String.eqb (type node) "Group"); [|reflexivity].
  cbn [map List.filter].
  destruct (getObjectByName node CHASSIS_OBJECT_NAME) as [o|]; [|reflexivity].
  destruct (isObstacle (Some o)); reflexivity.
Qed.

(** X14.  An object is an obstacle exactly when it is what the chassis
    lookup finds in a child of the scene of type Group, carries metadata,
    and is tagged in it; a child of another type, a group without a
    chassis, a chassis without metadata or without the tag gives none, and
    raises nothing. *)
Theorem obstacle_iff (scene : Object3D) (o : Object3D) :
  In o (obstacles scene) <->
  exists node meta,
    In node (children scene)
    /\ type node = "Group"%string
    /\ getObjectByName node CHASSIS_OBJECT_NAME = Some o
    /\ userData o = Some meta
    /\ isSensorObstacle meta = Some true.
Proof.
  unfold Sensors.obstacles. induction (children scene) as [|node nodes IH].
  - simpl. split; [intros [] | intros (node & meta & [] & _)].
  - rewrite obstaclesAmong_cons, in_app_iff, IH. split.
    + intros [Hin | (node' & meta & Hin & Hrest)].
      * revert Hin.
        destruct (String.eqb_spec (type node) "Group") as [Hty|]; [|intros []].
        destruct (getObjectByName node CHASSIS_OBJECT_NAME) as [o'|] eqn:Hget; [|intros []].
        unfold isObstacle.
        destruct (userData o') as [meta|] eqn:Hud; [|intros []].
        destruct (isSensorObstacle meta) as [[|]|] eqn:Htag; [|intros []|intros []].
        intros [<- | []].
        exists node, meta. simpl. auto.
      * exists node', meta. simpl. auto.
    + intros (node' & meta & [<- | Hin] & Hty & Hget & Hud & Htag).
      * left. rewrite Hty, Hget. simpl. rewrite Hud, Htag. simpl. auto.
      * right. exists node', meta. auto.
Qed.

(** X15.  The obstacles are gathered child by child, in the order of the
    children: those of two lists of nodes put together are those of the
    first followed by those of the second, and there are never more of them
    than nodes.  So adding or removing a node of the scene adds or removes
    its own obstacle only. *)
Theorem obstacles_local (before after : list Object3D) :
  obstaclesAmong (before ++ after) = obstaclesAmong before ++ obstaclesAmong after
  /\ (length (obstaclesAmong before) <= length before)%nat.
Proof.
  split.
  - induction before as [|node before IH]; [reflexivity|].
    simpl app. rewrite !obstaclesAmong_cons, IH, app_assoc. reflexivity.
  - induction before as [|node before IH]; [simpl; lia|].
    rewrite obstaclesAmong_cons, length_app.
    destruct (String.eqb (type node) "Group"); [|simpl; lia].
    destruct (getObjectByName node CHASSIS_OBJECT_NAME) as [o|]; [|simpl; lia].
    destruct (isObstacle (Some o)); simpl; lia.
Qed.

End Scene.

End SensorsMore.
